(** * Drum.py: the Moku:Go lock-in controller, embedded and verified

    [Drum.py] is a sequential wrapper around a vendor SDK: every method of
    [Moku_Go] is a fixed sequence of remote calls, sleeps and console writes.
    What can be said about such code is said about the calls it issues, so
    the embedding is a computation that reads the history of calls made so far
    and yields a result (a value or a Python exception) together with the
    calls it issued itself.

    Conventions of the model.
    - Numbers that Python holds as floats (frequencies, amplitudes, samples)
      are exact rationals [Q]; binary64 rounding is not modelled.  Arguments
      documented as [uint] are [N].
    - The lock-in amplifier is an instrument double: configuration calls are
      recorded and acknowledged, [get_data] answers with a channel record or
      raises, as a function of everything that was issued before.
    - [numpy] and [matplotlib] are outside the repository; [np_average] and
      [plt.contourf] follow their documented behaviour on the inputs the
      program gives them. *)

From Stdlib Require Import ZArith NArith QArith Lia.
From stdpp Require Import base option list strings gmap.

Local Open Scope string_scope.
Local Open Scope list_scope.

(** ** Python values and exceptions *)

Module Py.

(** The exceptions the program can meet. *)
Inductive exn : Type :=
| KeyError (key : string)
| NameError (name : string)
| TypeError (msg : string)
| ZeroDivisionError
| DeviceError (msg : string).

Inductive result (A : Type) : Type :=
| Ok (a : A)
| Raise (e : exn).
Global Arguments Ok {A} a.
Global Arguments Raise {A} e.

(** What the variable [val] of the two scans can hold: [None], a number, or
    the not-a-number that [numpy] returns for the mean of no samples. *)
Inductive value : Type :=
| PyNone
| PyNum (x : Q)
| PyNaN.

(** [v != None] *)
Definition ne_None (v : value) : bool :=
  match v with
  | PyNone => false
  | _ => true
  end.

(** [int(a / b)] on integers: true division, then truncation toward zero. *)
Definition int_truediv (a b : Z) : result Z :=
  if (b =? 0)%Z then Raise ZeroDivisionError else Ok (a ÷ b)%Z.

(** The [%f] conversion of the [%] operator accepts a real number only. *)
Definition percent_f (v : value) : result value :=
  match v with
  | PyNone => Raise (TypeError "must be real number, not NoneType")
  | _ => Ok v
  end.

End Py.
Export Py.

(** ** Calls to the outside world *)

(** The record [LockInAmp.get_data] returns: channel name to samples. *)
Abbreviation channel_data := (gmap string (list Q)).

(** What is written to the console.  The two format strings are kept as
    their arguments: [ProgressLine bar percent f val] stands for
    ["[%-25s] %d%%   Frequency = %.2f Hz, LIA: %f"] with a bar of [bar] signs,
    [PositionLine theta radius val] for
    ["theta: %d, radius: %d, LIA: %f"]. *)
Inductive text : Type :=
| CarriageReturn
| ProgressLine (bar percent : Z) (f : Q) (val : value)
| PositionLine (theta radius : Z) (val : value).

(** One constructor per external call of [Drum.py], with the arguments the
    program passes.  [EvGetData] also keeps the instrument's answer. *)
Inductive event : Type :=
| EvConnect (ip : string) (force_connect : bool)
| EvSetFrontend (channel : N) (coupling impedance attenuation : string)
| EvSetDemodulation (mode : string) (frequency : Q) (phase : option Q)
| EvSetAuxOutput (frequency amplitude : Q)
| EvSetFilter (corner_frequency : N) (slope : string)
| EvSetGain (main aux : N)
| EvSetMonitor (channel : N) (source : string)
| EvSetOutputs (main aux : string)
| EvSetPolarMode (range : string)
| EvGetData (answer : result channel_data)
| EvRelinquishOwnership
| EvSleep (seconds : N)
| EvStdoutWrite (s : text)
| EvStdoutFlush
| EvPrint (s : text)
| EvRadialGo (steps : Z)
| EvAngularGo (steps : Z)
| EvPltFigure
| EvPltPlot (x : list Q) (y : list value)
| EvPltContourf (r theta : list Q) (z : list (list value))
| EvPltColorbar (label : string)
| EvPltScatter (r theta : list Q) (s : list (list value))
| EvPltXlabel (label : string)
| EvPltYlabel (label : string)
| EvPltShow.

(** ** The monad of the embedding

    A computation is run against the history [h] of calls issued before it
    and returns its result with the calls it issued itself, oldest first.
    An exception stops the computation; the calls issued up to it stay. *)

Definition M (A : Type) : Type := list event → result A * list event.

Definition ret {A} (a : A) : M A := λ _, (Ok a, []).

Definition bind {A B} (m : M A) (k : A → M B) : M B := λ h,
  match m h with
  | (Ok a, es) => let '(r, es') := k a (h ++ es) in (r, es ++ es')
  | (Raise e, es) => (Raise e, es)
  end.

Definition raise {A} (e : exn) : M A := λ _, (Raise e, []).

Definition emit (e : event) : M unit := λ _, (Ok tt, [e]).

(** A pure step that may raise. *)
Definition lift {A} (r : result A) : M A := λ _, (r, []).

(** [try: m / except: handler] with a bare [except]: every exception is
    caught. *)
Definition try_except {A} (m handler : M A) : M A := λ h,
  match m h with
  | (Ok a, es) => (Ok a, es)
  | (Raise _, es) => let '(r, es') := handler (h ++ es) in (r, es ++ es')
  end.

Declare Scope py_scope.
Delimit Scope py_scope with py.
Notation "x <- m ;; k" := (bind m (λ x, k))
  (at level 100, m at next level, right associativity) : py_scope.
Notation "m ;; k" := (bind m (λ _, k))
  (at level 100, right associativity) : py_scope.
Local Open Scope py_scope.

(** [for x in xs: acc = body acc x], the loop-carried variables being
    [acc]. *)
Fixpoint for_in {A S} (xs : list A) (body : S → A → M S) (acc : S) : M S :=
  match xs with
  | [] => ret acc
  | x :: xs' => acc' <- body acc x ;; for_in xs' body acc'
  end.

(** [enumerate(xs)] *)
Definition enumerate {A} (xs : list A) : list (nat * A) :=
  imap (λ i x, (i, x)) xs.

(** [range(n)] *)
Definition range (n : nat) : list nat := seq 0 n.

(** ** The collaborators *)

(** [numpy.average] of a list of samples, no weights: the sum over the
    count, not-a-number for no samples.  This is the real number that
    [numpy] approximates: it adds and divides in binary64, rounding at each
    step (the samples 1, 1, 2 give 1.3333333333333333, not 4/3) and
    overflowing to infinity.  The methods below only pass the value on;
    nothing is proved here about how close it is to the mean. *)
Definition Qsum (a : list Q) : Q := foldr Qplus 0%Q a.

Definition np_average (a : list Q) : value :=
  match a with
  | [] => PyNaN
  | _ => PyNum (Qred (Qsum a / inject_Z (Z.of_nat (length a))))
  end.

(** [d[key]] on a dictionary. *)
Definition getitem {V} (d : gmap string V) (key : string) : M V :=
  match d !! key with
  | Some v => ret v
  | None => raise (KeyError key)
  end.

(** The instrument handle: how the device answers [get_data], given the
    calls that reached it and the outside world before. *)
Record LockInAmp : Type := { answer_get_data : list event → result channel_data }.

Module LIA.

Definition set_frontend (channel : N) (coupling impedance attenuation : string) : M unit :=
  emit (EvSetFrontend channel coupling impedance attenuation).

Definition set_demodulation (mode : string) (frequency : Q) (phase : option Q) : M unit :=
  emit (EvSetDemodulation mode frequency phase).

Definition set_aux_output (frequency amplitude : Q) : M unit :=
  emit (EvSetAuxOutput frequency amplitude).

Definition set_filter (corner_frequency : N) (slope : string) : M unit :=
  emit (EvSetFilter corner_frequency slope).

Definition set_gain (main aux : N) : M unit := emit (EvSetGain main aux).

Definition set_monitor (channel : N) (source : string) : M unit :=
  emit (EvSetMonitor channel source).

Definition set_outputs (main aux : string) : M unit := emit (EvSetOutputs main aux).

Definition set_polar_mode (range : string) : M unit := emit (EvSetPolarMode range).

Definition get_data (dev : LockInAmp) : M channel_data := λ h,
  let a := answer_get_data dev h in (a, [EvGetData a]).

Definition relinquish_ownership : M unit := emit EvRelinquishOwnership.

End LIA.

(** [time.sleep], [sys.stdout] and [print]. *)
Definition time_sleep (seconds : N) : M unit := emit (EvSleep seconds).
Definition stdout_write (s : text) : M unit := emit (EvStdoutWrite s).
Definition stdout_flush : M unit := emit EvStdoutFlush.
Definition print (s : text) : M unit := emit (EvPrint s).

(** [matplotlib.pyplot].  [plt_contourf r theta z] stands for
    [contourf(X, Y, Z)] with [X], [Y] the grids computed from
    [meshgrid(r, theta)], each of [length theta] rows and [length r]
    columns; the call is refused with a [TypeError] when that shape is not
    the shape of [z]. *)
Module plt.

Definition figure : M unit := emit EvPltFigure.
Definition plot (x : list Q) (y : list value) : M unit := emit (EvPltPlot x y).
Definition show : M unit := emit EvPltShow.
Definition colorbar (label : string) : M unit := emit (EvPltColorbar label).
Definition xlabel (label : string) : M unit := emit (EvPltXlabel label).
Definition ylabel (label : string) : M unit := emit (EvPltYlabel label).

Definition same_shape (r theta : list Q) (z : list (list value)) : bool :=
  bool_decide (length z = length theta) &&
  forallb (λ row, bool_decide (length row = length r)) z.

Definition contourf (r theta : list Q) (z : list (list value)) : M unit :=
  emit (EvPltContourf r theta z) ;;
  if same_shape r theta z then ret tt
  else raise (TypeError "Shapes of x and z do not match").

Definition scatter (r theta : list Q) (s : list (list value)) : M unit :=
  emit (EvPltScatter r theta s).

End plt.

(** ** class Moku_Go *)

Section Moku_Go.

(** [self.LIA] *)
Variable LIA : LockInAmp.

(** Whether the module-level name [motor] is bound when [spatial_scan]
    runs.  [Drum.py] never binds it (its one assignment is commented out),
    so this belongs to the namespace the file is loaded in. *)
Variable motor_bound : bool.

Definition motor_call (command : event) : M unit :=
  if motor_bound then emit command else raise (NameError "motor").

Definition motor_radial_go (steps : Z) : M unit := motor_call (EvRadialGo steps).
Definition motor_angular_go (steps : Z) : M unit := motor_call (EvAngularGo steps).

Definition configre_lockin (freq amp : Q) (lowpass_corner lowpass_slope gain : N) : M unit :=
  LIA.set_frontend 1 "AC" "1MOhm" "0dB" ;;
  LIA.set_demodulation "Internal" freq (Some 0%Q) ;;
  LIA.set_aux_output freq amp ;;
  (if (lowpass_slope =? 6)%N then LIA.set_filter 10 "Slope6dB"
   else if (lowpass_slope =? 12)%N then LIA.set_filter 10 "Slope12dB"
   else if (lowpass_slope =? 18)%N then LIA.set_filter 10 "Slope18dB"
   else if (lowpass_slope =? 24)%N then LIA.set_filter 10 "Slope24dB"
   else ret tt) ;;
  LIA.set_gain gain 1 ;;
  LIA.set_monitor 2 "MainOutput" ;;
  LIA.set_outputs "R" "Demod" ;;
  LIA.set_polar_mode "7.5mVpp".

(** [__init__]: [LockInAmp(IP, force_connect=force_connect)], then the
    default configuration [configre_lockin()] when [defaults] is set. *)
Definition init (IP : string) (force_connect defaults : bool) : M unit :=
  emit (EvConnect IP force_connect) ;;
  if defaults then configre_lockin 320 0.1 10 12 40 else ret tt.

Definition set_amplitude (amplitude : Q) : M unit :=
  LIA.set_aux_output 0 amplitude.

Definition set_frequency (freq : Q) (phase : Q) : M unit :=
  LIA.set_demodulation "Internal" freq None.

Definition get_output : M value :=
  data <- LIA.get_data LIA ;;
  ch2 <- getitem data "ch2" ;;
  ret (np_average ch2).

(** The body of the loop of [scan]; [n] is [len(freqs)], the carried
    variable is the list [amplitudes]. *)
Definition scan_body (n : nat) (delay : N) (amplitudes : list value)
    (i_f : nat * Q) : M (list value) :=
  let '(i, f) := i_f in
  set_frequency f 0 ;;
  time_sleep delay ;;
  val <- try_except get_output (ret (PyNum 0)) ;;
  let amplitudes :=
    if ne_None val then amplitudes ++ [val] else amplitudes ++ [PyNum 0] in
  stdout_write CarriageReturn ;;
  bar <- lift (int_truediv (25 * Z.of_nat i) (Z.of_nat n)) ;;
  percent <- lift (int_truediv (100 * Z.of_nat i) (Z.of_nat n)) ;;
  shown <- lift (percent_f val) ;;
  stdout_write (ProgressLine bar percent f shown) ;;
  stdout_flush ;;
  ret amplitudes.

Definition scan (freqs : list Q) (delay : N) (plot : bool) : M (list value) :=
  let n := length freqs in
  amplitudes <- for_in (enumerate freqs) (scan_body n delay) [] ;;
  (if plot then plt.figure ;; plt.plot freqs amplitudes ;; plt.show
   else ret tt) ;;
  ret amplitudes.

(** The inner loop of [spatial_scan]; the carried variable is [rad]. *)
Definition radial_body (i : nat) (rad : list value) (j : nat) : M (list value) :=
  motor_radial_go 700 ;;
  time_sleep 3 ;;
  val <- get_output ;;
  let rad := rad ++ [val] in
  shown <- lift (percent_f val) ;;
  print (PositionLine (Z.of_nat i * 10) ((Z.of_nat j + 1) * 700) shown) ;;
  ret rad.

(** The outer loop of [spatial_scan]; the carried variable is [data]. *)
Definition angular_body (data : list (list value)) (i : nat) : M (list (list value)) :=
  val <- get_output ;;
  rad <- for_in (range 10) (radial_body i) [val] ;;
  let data := data ++ [rad] in
  motor_radial_go (-7250) ;;
  motor_radial_go 250 ;;
  motor_angular_go 40 ;;
  time_sleep 2 ;;
  ret data.

Definition spatial_scan (r theta : list Q) : M unit :=
  data <- for_in (range 18) angular_body [] ;;
  plt.figure ;;
  plt.contourf r theta data ;;
  plt.colorbar "Values" ;;
  plt.scatter r theta data ;;
  plt.xlabel "X" ;;
  plt.ylabel "Y" ;;
  plt.show.

Definition close : M unit := LIA.relinquish_ownership.

End Moku_Go.

(** ** Observing a run *)

Definition outcome {A} (m : M A) (h : list event) : result A := (m h).1.
Definition issued {A} (m : M A) (h : list event) : list event := (m h).2.

(** The frequencies of the demodulation calls, in the order issued. *)
Definition set_frequency_calls (es : list event) : list Q :=
  omap (λ e, match e with EvSetDemodulation _ f _ => Some f | _ => None end) es.

(** The durations of the sleeps. *)
Definition settle_waits (es : list event) : list N :=
  omap (λ e, match e with EvSleep s => Some s | _ => None end) es.

(** The answers of the instrument to the reads. *)
Definition answers (es : list event) : list (result channel_data) :=
  omap (λ e, match e with EvGetData a => Some a | _ => None end) es.

(** The corner frequency and slope of the filter calls. *)
Definition filter_calls (es : list event) : list (N * string) :=
  omap (λ e, match e with EvSetFilter c s => Some (c, s) | _ => None end) es.

(** The auxiliary-output calls. *)
Definition aux_output_calls (es : list event) : list (Q * Q) :=
  omap (λ e, match e with EvSetAuxOutput f a => Some (f, a) | _ => None end) es.

Definition is_filter_call (e : event) : bool :=
  match e with
  | EvSetFilter _ _ => true
  | _ => false
  end.

(** The reference frequency an instrument holds after the calls [h]: that
    of the last demodulation call. *)
Definition reference_frequency (h : list event) : option Q :=
  last (set_frequency_calls h).

(** The slope identifiers of the SDK, by slope in dB per octave. *)
Definition slope_identifier : gmap N string :=
  {[ 6%N := "Slope6dB"; 12%N := "Slope12dB"; 18%N := "Slope18dB"; 24%N := "Slope24dB" ]}.

(** The calls of a sweep that touch the instrument or wait. *)
Definition is_sweep_step (e : event) : bool :=
  match e with
  | EvSetDemodulation _ _ _ | EvSleep _ | EvGetData _ => true
  | _ => false
  end.

Definition sweep_steps (es : list event) : list event := List.filter is_sweep_step es.

(** One step of the frequency sweep as the instrument sees it. *)
Definition sweep_step (delay : N) (f : Q) (a : result channel_data) : list event :=
  [EvSetDemodulation "Internal" f None; EvSleep delay; EvGetData a].

(** What one step of the sweep writes to the console: step [i] of [n],
    frequency [f], reading [val]. *)
Definition progress_report (n i : nat) (f : Q) (val : value) : list event :=
  [EvStdoutWrite CarriageReturn;
   EvStdoutWrite (ProgressLine (25 * Z.of_nat i ÷ Z.of_nat n)
                    (100 * Z.of_nat i ÷ Z.of_nat n) f val);
   EvStdoutFlush].

(** The calls of [scan] to the plotting library. *)
Definition plot_report (plot : bool) (x : list Q) (y : list value) : list event :=
  if plot then [EvPltFigure; EvPltPlot x y; EvPltShow] else [].

(** The reading [scan] stores for an answer of the instrument: the mean of
    channel 2, and 0 when the read raised or the record has no channel 2. *)
Definition stored_reading (a : result channel_data) : value :=
  match a with
  | Ok d =>
      match d !! "ch2" with
      | Some ch2 => np_average ch2
      | None => PyNum 0
      end
  | Raise _ => PyNum 0
  end.

(** Everything one iteration of [scan] issues: step [i] of [n] at frequency
    [f], the instrument answering [a]. *)
Definition scan_iteration (n : nat) (delay : N) (i_f : nat * Q)
    (a : result channel_data) : list event :=
  sweep_step delay i_f.2 a ++ progress_report n i_f.1 i_f.2 (stored_reading a).

(** The steps of the spatial scan, without the answers and the console. *)
Inductive motion : Type :=
| Read
| Radial (steps : Z)
| Angular (steps : Z)
| Wait (seconds : N).

Definition motion_of (e : event) : option motion :=
  match e with
  | EvGetData _ => Some Read
  | EvRadialGo s => Some (Radial s)
  | EvAngularGo s => Some (Angular s)
  | EvSleep s => Some (Wait s)
  | _ => None
  end.

Definition motions (es : list event) : list motion := omap motion_of es.

Definition count_reads (ms : list motion) : nat :=
  length (List.filter (λ m, match m with Read => true | _ => false end) ms).

(** The advances of the angular axis. *)
Definition angular_moves (ms : list motion) : list Z :=
  omap (λ m, match m with Angular s => Some s | _ => None end) ms.

Definition radial_step : list motion := [Radial 700; Wait 3; Read].

(** One angular position: the baseline read, ten radial steps, the return
    of the radial axis and the advance of the angular one. *)
Definition angular_pass : list motion :=
  Read :: mjoin (replicate 10 radial_step)
  ++ [Radial (-7250); Radial 250; Angular 40; Wait 2].

Definition is_plot_call (e : event) : bool :=
  match e with
  | EvPltFigure | EvPltPlot _ _ | EvPltContourf _ _ _ | EvPltColorbar _
  | EvPltScatter _ _ _ | EvPltXlabel _ | EvPltYlabel _ | EvPltShow => true
  | _ => false
  end.

(** Everything a run issued except the calls to the plotting library. *)
Definition scan_calls (es : list event) : list event :=
  List.filter (λ e, negb (is_plot_call e)) es.

(** ** Further observations *)

(** The bar length and the percentage of the progress lines written. *)
Definition progress_lines (es : list event) : list (Z * Z) :=
  omap (λ e, match e with
             | EvStdoutWrite (ProgressLine bar percent _ _) => Some (bar, percent)
             | _ => None
             end) es.

(** Bar and percentage of step [i] of [n]. *)
Definition progress_at (n i : nat) : Z * Z :=
  ((25 * Z.of_nat i ÷ Z.of_nat n)%Z, (100 * Z.of_nat i ÷ Z.of_nat n)%Z).

(** The angle and radius of the position lines printed. *)
Definition printed_positions (es : list event) : list (Z * Z) :=
  omap (λ e, match e with
             | EvPrint (PositionLine theta radius _) => Some (theta, radius)
             | _ => None
             end) es.

(** The positions [spatial_scan] prints in pass [i]. *)
Definition pass_positions (i : nat) : list (Z * Z) :=
  (λ j : nat, ((Z.of_nat i * 10)%Z, ((Z.of_nat j + 1) * 700)%Z)) <$> range 10.

(** The arguments of the contour calls. *)
Definition contour_calls (es : list event) : list (list Q * list Q * list (list value)) :=
  omap (λ e, match e with EvPltContourf r theta z => Some (r, theta, z) | _ => None end) es.

(** The commands sent to the motor. *)
Definition motor_calls (es : list event) : list event :=
  List.filter (λ e, match e with EvRadialGo _ | EvAngularGo _ => true | _ => false end) es.

(** The sum of the radial steps, and of the angular steps. *)
Definition radial_travel (ms : list motion) : Z :=
  foldr Z.add 0%Z (omap (λ m, match m with Radial s => Some s | _ => None end) ms).

Definition angular_travel (ms : list motion) : Z :=
  foldr Z.add 0%Z (angular_moves ms).

(** The calls that end an angular pass: the radial axis back by 7250 and
    forward by 250, the angular axis on by 40, two seconds of rest. *)
Definition pass_end : list event :=
  [EvRadialGo (-7250); EvRadialGo 250; EvAngularGo 40; EvSleep 2].

(** The calls of radial step [j] of pass [i], the instrument answering [a]
    and the reading being [val]. *)
Definition radial_calls (i j : nat) (a : result channel_data) (val : value) : list event :=
  [EvRadialGo 700; EvSleep 3; EvGetData a;
   EvPrint (PositionLine (Z.of_nat i * 10) ((Z.of_nat j + 1) * 700) val)].

(** A computation in which a read that raises is never caught: it ends the
    run, with the exception of the read. *)
Definition read_failure_ends {A} (m : M A) : Prop :=
  ∀ h e, Raise e ∈ answers (issued m h) →
    outcome m h = Raise e ∧ last (issued m h) = Some (EvGetData (Raise e)).

(** The grid of readings [spatial_scan] builds: 18 rows of 11. *)
Definition grid_18_11 (z : list (list value)) : Prop :=
  length z = 18 ∧ Forall (λ row, length row = 11) z.

(** ** Instrument doubles *)

(** An instrument whose channel 2 always holds the samples [ch2]. *)
Definition steady (ch2 : list Q) : LockInAmp :=
  {| answer_get_data := λ _, Ok {[ "ch1" := [0%Q]; "ch2" := ch2 ]} |}.

(** An instrument whose [k]-th read (from 0) raises. *)
Definition failing_at (k : nat) (ch2 : list Q) : LockInAmp :=
  {| answer_get_data := λ h,
       if bool_decide (length (answers h) = k) then Raise (DeviceError "no data")
       else Ok {[ "ch2" := ch2 ]} |}.

(** An instrument whose records have no channel 2. *)
Definition without_channel_2 : LockInAmp :=
  {| answer_get_data := λ _, Ok {[ "ch1" := [1%Q] ]} |}.

(** ** The configuration *)

Section configuration.

Variables (freq amp : Q) (lowpass_corner lowpass_slope gain : N).
Variable h : list event.

Lemma configre_lockin_runs :
  configre_lockin freq amp lowpass_corner lowpass_slope gain h =
  (Ok tt,
   [EvSetFrontend 1 "AC" "1MOhm" "0dB";
    EvSetDemodulation "Internal" freq (Some 0%Q);
    EvSetAuxOutput freq amp]
   ++ match slope_identifier !! lowpass_slope with
      | Some id => [EvSetFilter 10 id]
      | None => []
      end
   ++ [EvSetGain gain 1;
       EvSetMonitor 2 "MainOutput";
       EvSetOutputs "R" "Demod";
       EvSetPolarMode "7.5mVpp"]).
Proof.
  unfold configre_lockin, slope_identifier.
  destruct (N.eqb_spec lowpass_slope 6) as [->|H6]; [reflexivity|].
  destruct (N.eqb_spec lowpass_slope 12) as [->|H12]; [reflexivity|].
  destruct (N.eqb_spec lowpass_slope 18) as [->|H18]; [reflexivity|].
  destruct (N.eqb_spec lowpass_slope 24) as [->|H24]; [reflexivity|].
  rewrite !lookup_insert_ne, lookup_singleton_ne by congruence.
  reflexivity.
Qed.

End configuration.

(** The corner frequency handed to [configre_lockin] does not reach any
    call. *)
Lemma configre_lockin_corner_unused (freq amp : Q) (c c' slope gain : N) (h : list event) :
  configre_lockin freq amp c slope gain h = configre_lockin freq amp c' slope gain h.
Proof. rewrite !configre_lockin_runs. reflexivity. Qed.

(** C3: with a slope of 6, 12, 18 or 24, [configre_lockin] issues one filter
    call, with corner frequency 10 and the identifier of that slope; with any
    other slope it issues no filter call, and the seven other calls of the
    configuration are issued all the same. *)
Theorem configre_lockin_filter (freq amp : Q) (lowpass_corner lowpass_slope gain : N)
    (h : list event) :
  let run := configre_lockin freq amp lowpass_corner lowpass_slope gain in
  outcome run h = Ok tt
  ∧ filter_calls (issued run h) =
      match slope_identifier !! lowpass_slope with
      | Some id => [(10%N, id)]
      | None => []
      end
  ∧ List.filter (λ e, negb (is_filter_call e)) (issued run h) =
      [EvSetFrontend 1 "AC" "1MOhm" "0dB";
       EvSetDemodulation "Internal" freq (Some 0%Q);
       EvSetAuxOutput freq amp;
       EvSetGain gain 1;
       EvSetMonitor 2 "MainOutput";
       EvSetOutputs "R" "Demod";
       EvSetPolarMode "7.5mVpp"].
Proof.
  unfold outcome, issued. rewrite configre_lockin_runs. cbn [fst snd].
  destruct (slope_identifier !! lowpass_slope); repeat split; reflexivity.
Qed.

(** The identifiers the filter call can carry. *)
Lemma slope_identifier_valid (slope : N) :
  slope ∈ [6; 12; 18; 24]%N ↔ is_Some (slope_identifier !! slope).
Proof.
  unfold slope_identifier. split.
  - rewrite !elem_of_cons, elem_of_nil.
    intros [-> | [-> | [-> | [-> | []]]]]; eexists; reflexivity.
  - intros [id Hid].
    destruct (decide (slope = 6%N)) as [->|]; [set_solver|].
    destruct (decide (slope = 12%N)) as [->|]; [set_solver|].
    destruct (decide (slope = 18%N)) as [->|]; [set_solver|].
    destruct (decide (slope = 24%N)) as [->|]; [set_solver|].
    rewrite !lookup_insert_ne, lookup_singleton_ne in Hid by congruence.
    discriminate.
Qed.

Example slope_12 : slope_identifier !! 12%N = Some "Slope12dB".
Proof. reflexivity. Qed.

Example slope_7 : slope_identifier !! 7%N = None.
Proof. reflexivity. Qed.

(** C5, at [configre_lockin(lowpass_corner=20)]: the filter call carries
    the corner frequency 10, not the 20 that was supplied. *)
Theorem configre_lockin_corner_20 :
  filter_calls (issued (configre_lockin 320 0.1 20 12 40) []) = [(10%N, "Slope12dB")].
Proof. reflexivity. Qed.

(** C7: with a valid slope the eight configuration calls are issued in the
    order frontend, demodulation, auxiliary output, filter, gain, monitor,
    outputs, polar mode. *)
Theorem configre_lockin_order (freq amp : Q) (lowpass_corner lowpass_slope gain : N)
    (h : list event) :
  lowpass_slope ∈ [6; 12; 18; 24]%N →
  ∃ id, slope_identifier !! lowpass_slope = Some id ∧
    configre_lockin freq amp lowpass_corner lowpass_slope gain h =
    (Ok tt,
     [EvSetFrontend 1 "AC" "1MOhm" "0dB";
      EvSetDemodulation "Internal" freq (Some 0%Q);
      EvSetAuxOutput freq amp;
      EvSetFilter 10 id;
      EvSetGain gain 1;
      EvSetMonitor 2 "MainOutput";
      EvSetOutputs "R" "Demod";
      EvSetPolarMode "7.5mVpp"]).
Proof.
  intros Hs. apply slope_identifier_valid in Hs as [id Hid].
  exists id. split; [exact Hid|].
  rewrite configre_lockin_runs, Hid. reflexivity.
Qed.

Lemma configre_lockin_order_witness :
  ∃ id, slope_identifier !! 12%N = Some id ∧
    configre_lockin 320 0.1 10 12 40 [] =
    (Ok tt,
     [EvSetFrontend 1 "AC" "1MOhm" "0dB";
      EvSetDemodulation "Internal" 320 (Some 0%Q);
      EvSetAuxOutput 320 0.1;
      EvSetFilter 10 id;
      EvSetGain 40 1;
      EvSetMonitor 2 "MainOutput";
      EvSetOutputs "R" "Demod";
      EvSetPolarMode "7.5mVpp"]).
Proof.
  apply (configre_lockin_order 320 0.1 10 12 40 []).
  apply list_elem_of_further, list_elem_of_here.
Defined.

(** ** Amplitude, frequency, output *)

(** C6: [set_amplitude a] issues one call, the auxiliary output with
    frequency 0 and amplitude [a]; it issues no demodulation call, so the
    reference frequency the instrument holds is the one it held before. *)
Theorem set_amplitude_calls (a : Q) (h : list event) :
  set_amplitude a h = (Ok tt, [EvSetAuxOutput 0 a])
  ∧ aux_output_calls (issued (set_amplitude a) h) = [(0%Q, a)]
  ∧ set_frequency_calls (issued (set_amplitude a) h) = []
  ∧ reference_frequency (h ++ issued (set_amplitude a) h) = reference_frequency h.
Proof.
  repeat split.
  unfold reference_frequency, set_frequency_calls, issued. cbn.
  rewrite omap_app. cbn. rewrite app_nil_r. reflexivity.
Qed.

(** After the default configuration and [set_amplitude(2.5)] the reference
    frequency on record is still 320. *)
Example set_amplitude_after_configuration :
  let configured := issued (configre_lockin 320 0.1 10 12 40) [] in
  reference_frequency (configured ++ issued (set_amplitude 2.5) configured) = Some 320%Q.
Proof. reflexivity. Qed.

(** C9: the demodulation call of [set_frequency] is the same for any two
    phases: internal source, the frequency given, no phase passed. *)
Theorem set_frequency_phase_unused (freq p1 p2 : Q) (h : list event) :
  set_frequency freq p1 h = set_frequency freq p2 h
  ∧ set_frequency freq p1 h = (Ok tt, [EvSetDemodulation "Internal" freq None]).
Proof. split; reflexivity. Qed.

Lemma get_output_runs (LIA : LockInAmp) (h : list event) :
  get_output LIA h =
  (match answer_get_data LIA h with
   | Ok d =>
       match d !! "ch2" with
       | Some ch2 => Ok (np_average ch2)
       | None => Raise (KeyError "ch2")
       end
   | Raise e => Raise e
   end,
   [EvGetData (answer_get_data LIA h)]).
Proof.
  unfold get_output, LIA.get_data, getitem, bind. cbn.
  destruct (answer_get_data LIA h) as [d|e]; [|reflexivity].
  destruct (d !! "ch2"); reflexivity.
Qed.

(** [get_output] never returns [None]. *)
Lemma get_output_not_None (LIA : LockInAmp) (h : list event) :
  outcome (get_output LIA) h ≠ Ok PyNone.
Proof.
  unfold outcome. rewrite get_output_runs. cbn.
  destruct (answer_get_data LIA h) as [d|e]; [|discriminate].
  destruct (d !! "ch2") as [[|x xs]|]; discriminate.
Qed.

(** On samples whose sum and mean binary64 holds exactly, the value is the
    one [numpy] returns. *)
Example get_output_3 : outcome (get_output (steady [1; 2; 6]%Q)) [] = Ok (PyNum 3).
Proof. reflexivity. Qed.

Example get_output_no_samples : outcome (get_output (steady [])) [] = Ok PyNaN.
Proof. reflexivity. Qed.

Example get_output_no_channel :
  outcome (get_output {| answer_get_data := λ _, Ok ∅ |}) [] = Raise (KeyError "ch2").
Proof. reflexivity. Qed.

(** ** The frequency sweep *)

Lemma np_average_not_None (a : list Q) : np_average a ≠ PyNone.
Proof. destruct a; discriminate. Qed.

Lemma stored_reading_not_None (a : result channel_data) : stored_reading a ≠ PyNone.
Proof.
  destruct a as [d|e]; cbn; [|discriminate].
  destruct (d !! "ch2"); [apply np_average_not_None|discriminate].
Qed.

(** The guarded read of [scan]: it never raises, and yields the stored
    reading of the answer. *)
Lemma guarded_read_runs (LIA : LockInAmp) (h : list event) :
  try_except (get_output LIA) (ret (PyNum 0)) h =
  (Ok (stored_reading (answer_get_data LIA h)), [EvGetData (answer_get_data LIA h)]).
Proof.
  unfold try_except. rewrite get_output_runs.
  destruct (answer_get_data LIA h) as [d|e]; cbn; [|reflexivity].
  destruct (d !! "ch2"); reflexivity.
Qed.

Lemma answers_app (es1 es2 : list event) : answers (es1 ++ es2) = answers es1 ++ answers es2.
Proof. apply omap_app. Qed.

Section scan_loop.

Variable LIA : LockInAmp.
Variables (n : nat) (delay : N).
Hypothesis n_pos : n ≠ 0.

Lemma scan_body_runs (amplitudes : list value) (i : nat) (f : Q) (h : list event) :
  ∃ a, scan_body LIA n delay amplitudes (i, f) h =
    (Ok (amplitudes ++ [stored_reading a]),
     sweep_step delay f a ++ progress_report n i f (stored_reading a)).
Proof.
  exists (answer_get_data LIA ((h ++ [EvSetDemodulation "Internal" f None]) ++ [EvSleep delay])).
  unfold scan_body, bind at 1. cbn.
  unfold bind at 1. rewrite guarded_read_runs.
  set (a := answer_get_data LIA _).
  pose proof (stored_reading_not_None a) as Hval.
  unfold bind, int_truediv, lift. cbn.
  destruct (Z.eqb_spec (Z.of_nat n) 0) as [H0|_]; [lia|].
  destruct (stored_reading a); [congruence|reflexivity..].
Qed.

Lemma scan_loop_runs (ifs : list (nat * Q)) (amplitudes : list value) (h : list event) :
  ∃ es,
    for_in ifs (scan_body LIA n delay) amplitudes h =
      (Ok (amplitudes ++ (stored_reading <$> answers es)), es)
    ∧ sweep_steps es = mjoin (zip_with (sweep_step delay) ifs.*2 (answers es))
    ∧ set_frequency_calls es = ifs.*2
    ∧ settle_waits es = replicate (length ifs) delay
    ∧ length (answers es) = length ifs
    ∧ scan_calls es = es
    ∧ es = mjoin (zip_with (scan_iteration n delay) ifs (answers es)).
Proof.
  revert amplitudes h. induction ifs as [|[i f] ifs IH]; intros amplitudes h.
  - exists []. cbn. rewrite app_nil_r. repeat split.
  - destruct (scan_body_runs amplitudes i f h) as [a Hbody].
    set (step := sweep_step delay f a ++ progress_report n i f (stored_reading a)) in *.
    destruct (IH (amplitudes ++ [stored_reading a]) (h ++ step))
      as (es & Hrun & Hsteps & Hfreqs & Hwaits & Hlen & Hcalls & Hall).
    exists (step ++ es). cbn [for_in]. unfold bind at 1. rewrite Hbody, Hrun.
    split; [|split; [|split; [|split; [|split; [|split]]]]].
    + rewrite answers_app, <- app_assoc. reflexivity.
    + unfold sweep_steps in *. rewrite List.filter_app, answers_app, Hsteps.
      reflexivity.
    + unfold set_frequency_calls in *. rewrite omap_app, Hfreqs. reflexivity.
    + unfold settle_waits in *. rewrite omap_app, Hwaits. reflexivity.
    + rewrite answers_app, length_app, Hlen. reflexivity.
    + unfold scan_calls in *. rewrite List.filter_app, Hcalls. reflexivity.
    + rewrite answers_app.
      change (step ++ es = scan_iteration n delay (i, f) a
                ++ mjoin (zip_with (scan_iteration n delay) ifs (answers es))).
      rewrite <- Hall. reflexivity.
Qed.

End scan_loop.

Lemma enumerate_snd {A} (xs : list A) : (enumerate xs).*2 = xs.
Proof.
  unfold enumerate. rewrite fmap_imap. cbn.
  induction xs as [|x xs IH]; [reflexivity|].
  cbn. f_equal. exact IH.
Qed.

Lemma length_enumerate {A} (xs : list A) : length (enumerate xs) = length xs.
Proof. apply length_imap. Qed.

(** What [scan] hands to the plotting library. *)
Lemma scan_runs (LIA : LockInAmp) (freqs : list Q) (delay : N) (plot : bool)
    (h : list event) :
  ∃ es,
    scan LIA freqs delay plot h =
      (Ok (stored_reading <$> answers es),
       es ++ plot_report plot freqs (stored_reading <$> answers es))
    ∧ sweep_steps es = mjoin (zip_with (sweep_step delay) freqs (answers es))
    ∧ set_frequency_calls es = freqs
    ∧ settle_waits es = replicate (length freqs) delay
    ∧ length (answers es) = length freqs
    ∧ scan_calls es = es
    ∧ es = mjoin (zip_with (scan_iteration (length freqs) delay) (enumerate freqs)
                    (answers es)).
Proof.
  assert (∃ es,
    for_in (enumerate freqs) (scan_body LIA (length freqs) delay) [] h =
      (Ok ([] ++ (stored_reading <$> answers es)), es)
    ∧ sweep_steps es = mjoin (zip_with (sweep_step delay) (enumerate freqs).*2 (answers es))
    ∧ set_frequency_calls es = (enumerate freqs).*2
    ∧ settle_waits es = replicate (length (enumerate freqs)) delay
    ∧ length (answers es) = length (enumerate freqs)
    ∧ scan_calls es = es
    ∧ es = mjoin (zip_with (scan_iteration (length freqs) delay) (enumerate freqs)
                    (answers es))) as (es & Hrun & Hrest).
  { destruct freqs as [|f freqs].
    - exists []. repeat split.
    - apply scan_loop_runs. discriminate. }
  rewrite enumerate_snd, length_enumerate in Hrest.
  exists es. split; [|exact Hrest].
  unfold scan, bind at 1. rewrite Hrun. cbn [app].
  destruct plot; cbn; rewrite ?app_nil_r; reflexivity.
Qed.

Lemma scan_calls_app (es1 es2 : list event) :
  scan_calls (es1 ++ es2) = scan_calls es1 ++ scan_calls es2.
Proof. apply List.filter_app. Qed.

Lemma plot_report_silent (plot : bool) (x : list Q) (y : list value) :
  sweep_steps (plot_report plot x y) = []
  ∧ set_frequency_calls (plot_report plot x y) = []
  ∧ settle_waits (plot_report plot x y) = []
  ∧ answers (plot_report plot x y) = []
  ∧ scan_calls (plot_report plot x y) = [].
Proof. destruct plot; repeat split. Qed.

(** What [scan] issues, seen through the sweep: shared by the theorems on
    [scan] below. *)
Lemma scan_sweep (LIA : LockInAmp) (freqs : list Q) (delay : N) (plot : bool)
    (h : list event) :
  let es := issued (scan LIA freqs delay plot) h in
  outcome (scan LIA freqs delay plot) h = Ok (stored_reading <$> answers es)
  ∧ sweep_steps es = mjoin (zip_with (sweep_step delay) freqs (answers es))
  ∧ set_frequency_calls es = freqs
  ∧ settle_waits es = replicate (length freqs) delay
  ∧ length (answers es) = length freqs
  ∧ scan_calls es =
      mjoin (zip_with (scan_iteration (length freqs) delay) (enumerate freqs) (answers es)).
Proof.
  destruct (scan_runs LIA freqs delay plot h)
    as (es & Hrun & Hsteps & Hfreqs & Hwaits & Hlen & Hcalls & Hall).
  unfold outcome, issued. rewrite Hrun. cbn [fst snd].
  destruct (plot_report_silent plot freqs (stored_reading <$> answers es))
    as (Ps & Pf & Pw & Pa & Pc).
  rewrite scan_calls_app, Pc, Hcalls.
  unfold sweep_steps, set_frequency_calls, settle_waits in *.
  rewrite List.filter_app, answers_app, !omap_app, Ps, Pf, Pw, Pa, !app_nil_r.
  auto 7.
Qed.

(** C1: for frequencies [freqs] and any delay, [scan] returns normally; the
    demodulation calls it issues carry the frequencies of [freqs] in order;
    it sleeps [length freqs] times, [delay] each; what it issues besides the
    plot is, frequency by frequency in the order of [freqs], the calls set
    frequency, sleep, read and then the progress line; and the value returned
    at each position is the reading stored for the read at that position. *)
Theorem scan_one_reading_per_frequency (LIA : LockInAmp) (freqs : list Q) (delay : N)
    (plot : bool) (h : list event) :
  let es := issued (scan LIA freqs delay plot) h in
  set_frequency_calls es = freqs
  ∧ settle_waits es = replicate (length freqs) delay
  ∧ length (answers es) = length freqs
  ∧ sweep_steps es = mjoin (zip_with (sweep_step delay) freqs (answers es))
  ∧ scan_calls es =
      mjoin (zip_with (scan_iteration (length freqs) delay) (enumerate freqs) (answers es))
  ∧ outcome (scan LIA freqs delay plot) h = Ok (stored_reading <$> answers es).
Proof.
  destruct (scan_sweep LIA freqs delay plot h)
    as (Hout & Hsteps & Hfreqs & Hwaits & Hlen & Hall).
  auto 7.
Qed.

Example scan_two_frequencies :
  scan (steady [1; 2; 6]%Q) [100; 200]%Q 1 false [] =
  (Ok [PyNum 3; PyNum 3],
   [EvSetDemodulation "Internal" 100 None; EvSleep 1;
    EvGetData (Ok {[ "ch1" := [0%Q]; "ch2" := [1; 2; 6]%Q ]});
    EvStdoutWrite CarriageReturn; EvStdoutWrite (ProgressLine 0 0 100 (PyNum 3));
    EvStdoutFlush;
    EvSetDemodulation "Internal" 200 None; EvSleep 1;
    EvGetData (Ok {[ "ch1" := [0%Q]; "ch2" := [1; 2; 6]%Q ]});
    EvStdoutWrite CarriageReturn; EvStdoutWrite (ProgressLine 12 50 200 (PyNum 3));
    EvStdoutFlush]).
Proof. reflexivity. Qed.

(** C2: when the [k]-th read of a scan raises, the scan still returns
    normally, with one entry per frequency and 0 at position [k]; all the
    triples of the sweep are issued, and if there is a frequency at position
    [k+1], its read is made and its reading returned. *)
Theorem scan_read_failure_masked (LIA : LockInAmp) (freqs : list Q) (delay : N)
    (plot : bool) (h : list event) (k : nat) (e : exn) :
  let es := issued (scan LIA freqs delay plot) h in
  answers es !! k = Some (Raise e) →
  ∃ amplitudes,
    outcome (scan LIA freqs delay plot) h = Ok amplitudes
    ∧ length amplitudes = length freqs
    ∧ amplitudes !! k = Some (PyNum 0)
    ∧ sweep_steps es = mjoin (zip_with (sweep_step delay) freqs (answers es))
    ∧ length (answers es) = length freqs
    ∧ (∀ f, freqs !! S k = Some f →
         ∃ a, answers es !! S k = Some a ∧ amplitudes !! S k = Some (stored_reading a)).
Proof.
  intros es Hk.
  destruct (scan_sweep LIA freqs delay plot h)
    as (Hout & Hsteps & Hfreqs & Hwaits & Hlen & _).
  fold es in Hout, Hsteps, Hlen.
  exists (stored_reading <$> answers es).
  split; [exact Hout|]. split; [rewrite length_fmap; exact Hlen|].
  split; [rewrite list_lookup_fmap, Hk; reflexivity|].
  split; [exact Hsteps|]. split; [exact Hlen|].
  intros f Hf. apply lookup_lt_Some in Hf. rewrite <- Hlen in Hf.
  apply lookup_lt_is_Some in Hf as [a Ha].
  exists a. split; [exact Ha|]. rewrite list_lookup_fmap, Ha. reflexivity.
Qed.

Lemma scan_read_failure_masked_witness :
  ∃ amplitudes,
    outcome (scan (failing_at 1 [2; 4]%Q) [100; 200; 300]%Q 1 false) [] = Ok amplitudes
    ∧ length amplitudes = length [100; 200; 300]%Q
    ∧ amplitudes !! 1 = Some (PyNum 0)
    ∧ sweep_steps (issued (scan (failing_at 1 [2; 4]%Q) [100; 200; 300]%Q 1 false) []) =
        mjoin (zip_with (sweep_step 1) [100; 200; 300]%Q
                 (answers (issued (scan (failing_at 1 [2; 4]%Q) [100; 200; 300]%Q 1 false) [])))
    ∧ length (answers (issued (scan (failing_at 1 [2; 4]%Q) [100; 200; 300]%Q 1 false) [])) =
        length [100; 200; 300]%Q
    ∧ (∀ f, [100; 200; 300]%Q !! 2 = Some f →
         ∃ a, answers (issued (scan (failing_at 1 [2; 4]%Q) [100; 200; 300]%Q 1 false) []) !! 2
                = Some a
              ∧ amplitudes !! 2 = Some (stored_reading a)).
Proof.
  apply (scan_read_failure_masked (failing_at 1 [2; 4]%Q) [100; 200; 300]%Q 1 false []
           1 (DeviceError "no data")).
  reflexivity.
Defined.

Example scan_with_failure :
  outcome (scan (failing_at 1 [2; 4]%Q) [100; 200; 300]%Q 1 false) [] =
  Ok [PyNum 3; PyNum 0; PyNum 3].
Proof. reflexivity. Qed.

(** C10: on no frequencies [scan] returns the empty sequence, without
    raising; it sets no frequency, sleeps and reads nothing, and issues
    nothing but the plot of the empty sweep when a plot is asked for.  The
    two divisions by [len(freqs)] are in the loop body, which is not run. *)
Theorem scan_empty (LIA : LockInAmp) (delay : N) (plot : bool) (h : list event) :
  scan LIA [] delay plot h = (Ok [], plot_report plot [] [])
  ∧ set_frequency_calls (issued (scan LIA [] delay plot) h) = []
  ∧ answers (issued (scan LIA [] delay plot) h) = []
  ∧ settle_waits (issued (scan LIA [] delay plot) h) = []
  ∧ outcome (scan LIA [] delay plot) h ≠ Raise ZeroDivisionError.
Proof. destruct plot; repeat split; discriminate. Qed.

(** ** The spatial scan *)

Lemma motions_app (es1 es2 : list event) : motions (es1 ++ es2) = motions es1 ++ motions es2.
Proof. apply omap_app. Qed.

(** The reads among the steps of a scan are the reads of the run. *)
Lemma reads_motions (es : list event) : count_reads (motions es) = length (answers es).
Proof.
  induction es as [|e es IH]; [reflexivity|].
  destruct e; cbn; try exact IH. f_equal. exact IH.
Qed.

(** A loop whose body always succeeds and always makes the moves [blk]
    makes them once per element. *)
Lemma for_in_motions {A S} (body : S → A → M S) (blk : list motion) :
  (∀ acc x h, ∃ acc' es, body acc x h = (Ok acc', es) ∧ motions es = blk) →
  ∀ xs acc h, ∃ acc' es,
    for_in xs body acc h = (Ok acc', es)
    ∧ motions es = mjoin (replicate (length xs) blk).
Proof.
  intros Hbody xs. induction xs as [|x xs IH]; intros acc h.
  - exists acc, []. split; reflexivity.
  - destruct (Hbody acc x h) as (acc1 & es1 & Hrun1 & Hm1).
    destruct (IH acc1 (h ++ es1)) as (acc2 & es2 & Hrun2 & Hm2).
    exists acc2, (es1 ++ es2). cbn [for_in]. unfold bind. rewrite Hrun1, Hrun2.
    split; [reflexivity|].
    rewrite motions_app, Hm1, Hm2. reflexivity.
Qed.

Section spatial_scan_loop.

Variable LIA : LockInAmp.
Hypothesis reads_succeed :
  ∀ h, ∃ d ch2, answer_get_data LIA h = Ok d ∧ d !! "ch2" = Some ch2.

Lemma get_output_succeeds (h : list event) :
  ∃ val a, get_output LIA h = (Ok val, [EvGetData a]) ∧ val ≠ PyNone.
Proof.
  destruct (reads_succeed h) as (d & ch2 & Hd & Hch2).
  exists (np_average ch2), (Ok d).
  rewrite get_output_runs, Hd, Hch2.
  split; [reflexivity|apply np_average_not_None].
Qed.

Lemma radial_body_runs (i : nat) (rad : list value) (j : nat) (h : list event) :
  ∃ rad' es, radial_body LIA true i rad j h = (Ok rad', es) ∧ motions es = radial_step.
Proof.
  destruct (get_output_succeeds ((h ++ [EvRadialGo 700]) ++ [EvSleep 3]))
    as (val & a & Hrun & Hval).
  unfold radial_body, bind at 1. cbn. unfold bind at 1. rewrite Hrun.
  destruct val; [congruence| |]; cbn; eexists _, _; (split; [reflexivity|reflexivity]).
Qed.

Lemma angular_body_runs (data : list (list value)) (i : nat) (h : list event) :
  ∃ data' es, angular_body LIA true data i h = (Ok data', es) ∧ motions es = angular_pass.
Proof.
  destruct (get_output_succeeds h) as (val & a & Hrun & _).
  destruct (for_in_motions (radial_body LIA true i) radial_step (radial_body_runs i)
              (range 10) [val] (h ++ [EvGetData a])) as (rad & es & Hloop & Hm).
  unfold angular_body, bind at 1. rewrite Hrun.
  unfold bind at 1. rewrite Hloop. cbn.
  eexists _, _. split; [reflexivity|].
  cbn. rewrite motions_app, Hm. reflexivity.
Qed.

Lemma angular_loop_runs (h : list event) :
  ∃ data es,
    for_in (range 18) (angular_body LIA true) [] h = (Ok data, es)
    ∧ motions es = mjoin (replicate 18 angular_pass).
Proof.
  apply (for_in_motions (angular_body LIA true) angular_pass angular_body_runs (range 18)).
Qed.

End spatial_scan_loop.

(** The plotting stage adds calls to the plotting library only, whatever
    the loop did. *)
Lemma spatial_scan_scan_calls (LIA : LockInAmp) (motor_bound : bool) (r theta : list Q)
    (h : list event) :
  scan_calls (issued (spatial_scan LIA motor_bound r theta) h) =
  scan_calls (issued (for_in (range 18) (angular_body LIA motor_bound) []) h)
  ∧ motions (issued (spatial_scan LIA motor_bound r theta) h) =
    motions (issued (for_in (range 18) (angular_body LIA motor_bound) []) h).
Proof.
  assert (∃ plots,
    issued (spatial_scan LIA motor_bound r theta) h =
      issued (for_in (range 18) (angular_body LIA motor_bound) []) h ++ plots
    ∧ scan_calls plots = [] ∧ motions plots = []) as (plots & -> & Hc & Hm).
  { unfold issued, spatial_scan. unfold bind at 1.
    destruct (for_in (range 18) (angular_body LIA motor_bound) [] h) as [[data|e] es].
    - unfold plt.contourf, bind. cbn.
      destruct (plt.same_shape r theta data); cbn [snd];
        eexists; (split; [reflexivity|split; reflexivity]).
    - exists []. rewrite app_nil_r. repeat split. }
  rewrite scan_calls_app, motions_app, Hc, Hm, !app_nil_r. split; reflexivity.
Qed.

(** C4: with the motor bound and an instrument that answers every read,
    [spatial_scan] goes through 18 angular passes of one baseline read and
    ten radial steps with a read each, 198 reads in all, and advances the
    angular axis 18 times.  For any two pairs of arguments the calls other
    than those to the plotting library are the same. *)
Theorem spatial_scan_fixed_sweep (LIA : LockInAmp) (r theta r' theta' : list Q)
    (h : list event) :
  (∀ h', ∃ d ch2, answer_get_data LIA h' = Ok d ∧ d !! "ch2" = Some ch2) →
  let es := issued (spatial_scan LIA true r theta) h in
  motions es = mjoin (replicate 18 angular_pass)
  ∧ angular_moves (motions es) = replicate 18 40%Z
  ∧ length (answers es) = 198
  ∧ scan_calls es = scan_calls (issued (spatial_scan LIA true r' theta') h).
Proof.
  intros Hreads es.
  destruct (spatial_scan_scan_calls LIA true r theta h) as [Hcalls Hmotions].
  destruct (spatial_scan_scan_calls LIA true r' theta' h) as [Hcalls' _].
  destruct (angular_loop_runs LIA Hreads h) as (data & es0 & Hloop & Hm).
  assert (motions es = mjoin (replicate 18 angular_pass)) as Hes.
  { subst es. rewrite Hmotions. unfold issued. rewrite Hloop. exact Hm. }
  split; [exact Hes|]. split; [rewrite Hes; reflexivity|]. split.
  - rewrite <- reads_motions, Hes. reflexivity.
  - subst es. rewrite Hcalls, Hcalls'. reflexivity.
Qed.

Lemma spatial_scan_fixed_sweep_witness :
  let es := issued (spatial_scan (steady [1; 2; 6]%Q) true [1; 2]%Q [0]%Q) [] in
  motions es = mjoin (replicate 18 angular_pass)
  ∧ angular_moves (motions es) = replicate 18 40%Z
  ∧ length (answers es) = 198
  ∧ scan_calls es = scan_calls (issued (spatial_scan (steady [1; 2; 6]%Q) true [] []) []).
Proof.
  apply (spatial_scan_fixed_sweep (steady [1; 2; 6]%Q) [1; 2]%Q [0]%Q [] [] []).
  intros h'. eexists _, _. split; reflexivity.
Defined.

(** Without a binding for [motor] the scan stops at the first radial step,
    after the baseline read. *)
Example spatial_scan_motor_unbound :
  spatial_scan (steady [1; 2; 6]%Q) false [] [] [] =
  (Raise (NameError "motor"), [EvGetData (Ok {[ "ch1" := [0%Q]; "ch2" := [1; 2; 6]%Q ]})]).
Proof. reflexivity. Qed.

(** A read that raises is not caught here: the scan stops with it. *)
Example spatial_scan_read_raises :
  spatial_scan (failing_at 0 []) true [] [] [] =
  (Raise (DeviceError "no data"), [EvGetData (Raise (DeviceError "no data"))]).
Proof. reflexivity. Qed.

(** A full run on an 11 by 18 grid: the plot is accepted. *)
Example spatial_scan_grid :
  outcome (spatial_scan (steady [1; 2; 6]%Q) true
             (replicate 11 1%Q) (replicate 18 0%Q)) [] = Ok tt.
Proof. vm_compute. reflexivity. Qed.

(** On any other grid the plot is refused, after the 198 reads. *)
Example spatial_scan_grid_mismatch :
  let run := spatial_scan (steady [1; 2; 6]%Q) true [1; 2]%Q [0]%Q in
  outcome run [] = Raise (TypeError "Shapes of x and z do not match")
  ∧ length (answers (issued run [])) = 198.
Proof. vm_compute. split; reflexivity. Qed.

(** ** Release *)

Example close_releases_once (h : list event) :
  close h = (Ok tt, [EvRelinquishOwnership]).
Proof. reflexivity. Qed.

(** ** More on the frequency sweep *)

Lemma enumerate_fst {A} (xs : list A) : (enumerate xs).*1 = seq 0 (length xs).
Proof.
  unfold enumerate. rewrite fmap_imap.
  rewrite <- (list_fmap_id (seq 0 (length xs))). apply (imap_seq_0 xs id).
Qed.

(** A projection that sees nothing in the calls of the iterations sees
    nothing in the sweep. *)
Lemma iterations_silent {B} (g : event → option B) (n : nat) (delay : N)
    (ifs : list (nat * Q)) (ans : list (result channel_data)) :
  (∀ i_f a, omap g (scan_iteration n delay i_f a) = []) →
  omap g (mjoin (zip_with (scan_iteration n delay) ifs ans)) = [].
Proof.
  intros Hg. revert ans. induction ifs as [|i_f ifs IH]; intros [|a ans]; try reflexivity.
  cbn [zip_with]. change (mjoin (?x :: ?l)) with (x ++ mjoin l).
  rewrite omap_app, Hg, IH. reflexivity.
Qed.

Lemma progress_lines_iterations (n : nat) (delay : N) (ifs : list (nat * Q))
    (ans : list (result channel_data)) :
  length ans = length ifs →
  progress_lines (mjoin (zip_with (scan_iteration n delay) ifs ans)) =
  progress_at n <$> ifs.*1.
Proof.
  revert ans. induction ifs as [|[i f] ifs IH]; intros [|a ans] Hlen;
    try discriminate; [reflexivity|].
  cbn [zip_with fmap list_fmap]. change (mjoin (?x :: ?l)) with (x ++ mjoin l).
  unfold progress_lines in *. rewrite omap_app, IH by (cbn in Hlen; lia).
  reflexivity.
Qed.

Lemma progress_at_bounds (n i : nat) :
  i < n →
  (0 ≤ (progress_at n i).1 < 25 ∧ 0 ≤ (progress_at n i).2 < 100)%Z.
Proof.
  intros Hi. unfold progress_at. cbn [fst snd].
  repeat split.
  - apply Z.quot_pos; lia.
  - apply Z.quot_lt_upper_bound; lia.
  - apply Z.quot_pos; lia.
  - apply Z.quot_lt_upper_bound; lia.
Qed.

(** X1: the progress lines of [scan] are those of the steps 0 to n-1 of n,
    so the bar stays below its 25 signs and the percentage below 100. *)
Theorem scan_progress_below_full (LIA : LockInAmp) (freqs : list Q) (delay : N)
    (plot : bool) (h : list event) :
  let lines := progress_lines (issued (scan LIA freqs delay plot) h) in
  lines = progress_at (length freqs) <$> seq 0 (length freqs)
  ∧ Forall (λ line, (0 ≤ line.1 < 25 ∧ 0 ≤ line.2 < 100)%Z) lines.
Proof.
  destruct (scan_runs LIA freqs delay plot h)
    as (es & Hrun & _ & _ & _ & Hlen & _ & Hall).
  assert (progress_lines (issued (scan LIA freqs delay plot) h) =
          progress_at (length freqs) <$> seq 0 (length freqs)) as Hlines.
  { unfold issued. rewrite Hrun. cbn [snd].
    unfold progress_lines. rewrite omap_app.
    replace (omap _ (plot_report plot freqs _)) with (@nil (Z * Z))
      by (destruct plot; reflexivity).
    rewrite app_nil_r. fold (progress_lines es).
    rewrite Hall at 1.
    rewrite progress_lines_iterations by (rewrite length_enumerate; exact Hlen).
    rewrite enumerate_fst. reflexivity. }
  cbn zeta. rewrite Hlines. split; [reflexivity|].
  apply Forall_fmap, Forall_seq. intros i Hi.
  apply progress_at_bounds. lia.
Qed.

(** X2: the one call [scan] makes to [plot] comes after everything else and
    draws the frequencies given against the values returned, one value per
    frequency; without [plot] nothing is drawn. *)
Theorem scan_plots_what_it_returns (LIA : LockInAmp) (freqs : list Q) (delay : N)
    (plot : bool) (h : list event) :
  let es := issued (scan LIA freqs delay plot) h in
  ∃ amplitudes,
    outcome (scan LIA freqs delay plot) h = Ok amplitudes
    ∧ length amplitudes = length freqs
    ∧ es = scan_calls es
           ++ (if plot then [EvPltFigure; EvPltPlot freqs amplitudes; EvPltShow] else []).
Proof.
  destruct (scan_runs LIA freqs delay plot h)
    as (es & Hrun & _ & _ & _ & Hlen & Hcalls & _).
  exists (stored_reading <$> answers es).
  unfold outcome, issued. rewrite Hrun. cbn [fst snd].
  split; [reflexivity|]. split; [rewrite length_fmap; exact Hlen|].
  rewrite scan_calls_app, Hcalls.
  destruct plot; cbn; rewrite ?app_nil_r; reflexivity.
Qed.

Lemma scan_by_loop (LIA : LockInAmp) (freqs : list Q) (delay : N) (plot : bool)
    (h : list event) :
  scan LIA freqs delay plot h =
  match for_in (enumerate freqs) (scan_body LIA (length freqs) delay) [] h with
  | (Ok amplitudes, es) => (Ok amplitudes, es ++ plot_report plot freqs amplitudes)
  | (Raise e, es) => (Raise e, es)
  end.
Proof.
  unfold scan, bind at 1.
  destruct (for_in _ _ _ h) as [[a|e] es]; [|reflexivity].
  destruct plot; cbn; rewrite ?app_nil_r; reflexivity.
Qed.

(** X3: asking for the plot changes neither the values returned nor any call
    before the plot. *)
Theorem scan_plot_does_not_interfere (LIA : LockInAmp) (freqs : list Q) (delay : N)
    (h : list event) :
  outcome (scan LIA freqs delay true) h = outcome (scan LIA freqs delay false) h
  ∧ scan_calls (issued (scan LIA freqs delay true) h) = issued (scan LIA freqs delay false) h.
Proof.
  destruct (scan_runs LIA freqs delay false h)
    as (es & Hrun & _ & _ & _ & _ & Hcalls & _).
  unfold outcome, issued. revert Hrun. rewrite !scan_by_loop.
  destruct (for_in _ _ _ h) as [[a|e] es']; [|discriminate].
  cbn. rewrite !app_nil_r. intros [= _ ->]. cbn [fst snd].
  split; [reflexivity|].
  rewrite scan_calls_app, Hcalls. cbn. rewrite app_nil_r. reflexivity.
Qed.

(** X4: after a scan the reference frequency on record is the last
    frequency of the sweep (the one held before, on no frequencies), and the
    scan issues no auxiliary-output and no filter call. *)
Theorem scan_leaves_last_frequency (LIA : LockInAmp) (freqs : list Q) (delay : N)
    (plot : bool) (h : list event) :
  let es := issued (scan LIA freqs delay plot) h in
  reference_frequency (h ++ es) =
    match last freqs with
    | Some f => Some f
    | None => reference_frequency h
    end
  ∧ aux_output_calls es = []
  ∧ filter_calls es = [].
Proof.
  destruct (scan_runs LIA freqs delay plot h)
    as (es & Hrun & _ & Hfreqs & _ & _ & _ & Hall).
  unfold issued. rewrite Hrun. cbn [snd].
  split; [|split].
  - unfold reference_frequency, set_frequency_calls in *.
    rewrite !omap_app, Hfreqs.
    replace (omap _ (plot_report plot freqs _)) with (@nil Q)
      by (destruct plot; reflexivity).
    rewrite app_nil_r. apply last_app.
  - unfold aux_output_calls. rewrite omap_app, Hall, iterations_silent by reflexivity.
    destruct plot; reflexivity.
  - unfold filter_calls. rewrite omap_app, Hall, iterations_silent by reflexivity.
    destruct plot; reflexivity.
Qed.

(** X5: a record without channel 2 is stored as 0 like a read that raised
    (the [KeyError] is caught too); a channel 2 without samples is stored as
    not-a-number. *)
Theorem scan_missing_or_empty_channel (LIA : LockInAmp) (freqs : list Q) (delay : N)
    (plot : bool) (h : list event) (k : nat) (d : channel_data) :
  answers (issued (scan LIA freqs delay plot) h) !! k = Some (Ok d) →
  ∃ amplitudes,
    outcome (scan LIA freqs delay plot) h = Ok amplitudes
    ∧ (d !! "ch2" = None → amplitudes !! k = Some (PyNum 0))
    ∧ (d !! "ch2" = Some [] → amplitudes !! k = Some PyNaN).
Proof.
  intros Hk.
  destruct (scan_sweep LIA freqs delay plot h) as (Hout & _).
  exists (stored_reading <$> answers (issued (scan LIA freqs delay plot) h)).
  split; [exact Hout|].
  rewrite list_lookup_fmap, Hk. cbn.
  split; intros ->; reflexivity.
Qed.

Lemma scan_missing_or_empty_channel_witness :
  ∃ amplitudes,
    outcome (scan without_channel_2 [100; 200]%Q 1 false) [] = Ok amplitudes
    ∧ (({[ "ch1" := [1%Q] ]} : channel_data) !! "ch2" = None →
         amplitudes !! 1 = Some (PyNum 0))
    ∧ (({[ "ch1" := [1%Q] ]} : channel_data) !! "ch2" = Some [] →
         amplitudes !! 1 = Some PyNaN).
Proof.
  apply (scan_missing_or_empty_channel without_channel_2 [100; 200]%Q 1 false [] 1
           {[ "ch1" := [1%Q] ]}).
  reflexivity.
Defined.

Example scan_no_samples :
  outcome (scan (steady []) [100; 200]%Q 1 false) [] = Ok [PyNaN; PyNaN].
Proof. reflexivity. Qed.

(** ** More on amplitude, frequency and output *)


(** X7: [set_frequency] makes its frequency the reference frequency on
    record, whatever was issued before, and leaves the auxiliary-output and
    filter calls on record as they were: the output sinewave is not touched. *)
Theorem set_frequency_only_demodulation (freq phase : Q) (h : list event) :
  let after := h ++ issued (set_frequency freq phase) h in
  reference_frequency after = Some freq
  ∧ aux_output_calls after = aux_output_calls h
  ∧ filter_calls after = filter_calls h.
Proof.
  cbn. unfold reference_frequency, set_frequency_calls, aux_output_calls, filter_calls.
  rewrite !omap_app. cbn. rewrite !app_nil_r, last_snoc. auto.
Qed.

(** ** More on the spatial scan *)

Lemma spatial_scan_by_loop (LIA : LockInAmp) (motor_bound : bool) (r theta : list Q)
    (h : list event) :
  spatial_scan LIA motor_bound r theta h =
  match for_in (range 18) (angular_body LIA motor_bound) [] h with
  | (Ok data, es) =>
      if plt.same_shape r theta data
      then (Ok tt,
            es ++ [EvPltFigure; EvPltContourf r theta data; EvPltColorbar "Values";
                   EvPltScatter r theta data; EvPltXlabel "X"; EvPltYlabel "Y";
                   EvPltShow])
      else (Raise (TypeError "Shapes of x and z do not match"),
            es ++ [EvPltFigure; EvPltContourf r theta data])
  | (Raise e, es) => (Raise e, es)
  end.
Proof.
  unfold spatial_scan, bind at 1.
  destruct (for_in _ _ _ h) as [[data|e] es]; [|reflexivity].
  unfold plt.contourf, bind. cbn.
  destruct (plt.same_shape r theta data); reflexivity.
Qed.

Lemma angular_body_without_motor (LIA : LockInAmp) (data : list (list value)) (i : nat)
    (h : list event) :
  ∃ e,
    angular_body LIA false data i h = (Raise e, [EvGetData (answer_get_data LIA h)])
    ∧ Raise e = match outcome (get_output LIA) h with
                | Ok _ => Raise (NameError "motor")
                | Raise e' => Raise (A:=unit) e'
                end.
Proof.
  unfold angular_body, outcome, bind at 1. rewrite get_output_runs.
  destruct (answer_get_data LIA h) as [d|e0]; [|eexists; split; reflexivity].
  destruct (d !! "ch2"); eexists; split; reflexivity.
Qed.

(** X8: without a binding for [motor] the scan never gets past the first
    radial step: it makes the baseline read and nothing else, no motor
    command and no plot, and ends with the [NameError], or with the
    exception of the read when that one failed. *)
Theorem spatial_scan_without_motor (LIA : LockInAmp) (r theta : list Q) (h : list event) :
  issued (spatial_scan LIA false r theta) h = [EvGetData (answer_get_data LIA h)]
  ∧ outcome (spatial_scan LIA false r theta) h =
      match outcome (get_output LIA) h with
      | Ok _ => Raise (NameError "motor")
      | Raise e => Raise e
      end.
Proof.
  destruct (angular_body_without_motor LIA [] 0 h) as (e & Hbody & He).
  assert (spatial_scan LIA false r theta h =
          (Raise e, [EvGetData (answer_get_data LIA h)])) as Hrun.
  { rewrite spatial_scan_by_loop.
    change (range 18) with (0 :: seq 1 17). cbn [for_in].
    unfold bind at 1. rewrite Hbody. reflexivity. }
  unfold issued at 1, outcome at 1. rewrite Hrun.
  split; [reflexivity|exact He].
Qed.

(** Reads that raise are not caught by the pieces [spatial_scan] is made
    of. *)
Lemma read_failure_ends_bind {A B} (m : M A) (k : A → M B) :
  read_failure_ends m → (∀ a, read_failure_ends (k a)) → read_failure_ends (bind m k).
Proof.
  intros Hm Hk h e. specialize (Hm h e). revert Hm.
  unfold issued, outcome, bind.
  destruct (m h) as [[a|e1] es1]; cbn [fst snd].
  2: { intros Hm H. destruct (Hm H) as [[= ->] Hlast]. split; [reflexivity|exact Hlast]. }
  intros Hm. specialize (Hk a (h ++ es1) e). revert Hk. unfold issued, outcome.
  destruct (k a (h ++ es1)) as [r2 es2]. cbn [fst snd].
  rewrite answers_app, elem_of_app. intros Hk [H1|H2].
  - apply Hm in H1 as [? _]. discriminate.
  - apply Hk in H2 as [-> Hlast]. split; [reflexivity|].
    rewrite last_app, Hlast. reflexivity.
Qed.

Lemma read_failure_ends_silent {A} (m : M A) :
  (∀ h, answers (issued m h) = []) → read_failure_ends m.
Proof. intros Hm h e. rewrite Hm. intros H. apply elem_of_nil in H. destruct H. Qed.

Lemma read_failure_ends_for_in {A S} (body : S → A → M S) (xs : list A) :
  (∀ acc x, read_failure_ends (body acc x)) → ∀ acc, read_failure_ends (for_in xs body acc).
Proof.
  intros Hbody. induction xs as [|x xs IH]; intros acc.
  - apply read_failure_ends_silent. reflexivity.
  - cbn [for_in]. apply read_failure_ends_bind; [apply Hbody|exact IH].
Qed.

Lemma read_failure_ends_get_output (LIA : LockInAmp) : read_failure_ends (get_output LIA).
Proof.
  intros h e. unfold issued, outcome. rewrite get_output_runs. cbn [fst snd].
  change (answers [EvGetData (answer_get_data LIA h)]) with [answer_get_data LIA h].
  rewrite list_elem_of_singleton. intros <-. split; reflexivity.
Qed.

Lemma read_failure_ends_motor (motor_bound : bool) (steps : Z) :
  read_failure_ends (motor_radial_go motor_bound steps)
  ∧ read_failure_ends (motor_angular_go motor_bound steps).
Proof.
  split; apply read_failure_ends_silent; intros h; destruct motor_bound; reflexivity.
Qed.

Lemma read_failure_ends_lift {A} (r : result A) : read_failure_ends (lift r).
Proof. apply read_failure_ends_silent. reflexivity. Qed.

Lemma read_failure_ends_angular_body (LIA : LockInAmp) (motor_bound : bool)
    (data : list (list value)) (i : nat) :
  read_failure_ends (angular_body LIA motor_bound data i).
Proof.
  unfold angular_body.
  apply read_failure_ends_bind; [apply read_failure_ends_get_output|intros val].
  apply read_failure_ends_bind.
  { apply read_failure_ends_for_in. intros rad j. unfold radial_body.
    apply read_failure_ends_bind; [apply read_failure_ends_motor|intros _].
    apply read_failure_ends_bind; [apply read_failure_ends_silent; reflexivity|intros _].
    apply read_failure_ends_bind; [apply read_failure_ends_get_output|intros val'].
    apply read_failure_ends_bind; [apply read_failure_ends_lift|intros shown].
    apply read_failure_ends_bind; [|intros _]; apply read_failure_ends_silent; reflexivity. }
  intros rad.
  repeat (apply read_failure_ends_bind; [apply read_failure_ends_motor|intros _]).
  apply read_failure_ends_bind; [|intros _]; apply read_failure_ends_silent; reflexivity.
Qed.

(** X9: [spatial_scan] catches no failure of a read.  If any read of the
    run raised, that read is the last call the scan issued and the scan ends
    with its exception: no zero is stored in its place, and nothing is
    plotted. *)
Theorem spatial_scan_read_failure_ends (LIA : LockInAmp) (motor_bound : bool)
    (r theta : list Q) (h : list event) (e : exn) :
  Raise e ∈ answers (issued (spatial_scan LIA motor_bound r theta) h) →
  outcome (spatial_scan LIA motor_bound r theta) h = Raise e
  ∧ last (issued (spatial_scan LIA motor_bound r theta) h) = Some (EvGetData (Raise e)).
Proof.
  assert (read_failure_ends (spatial_scan LIA motor_bound r theta)) as Hscan;
    [|exact (Hscan h e)].
  unfold spatial_scan.
  apply read_failure_ends_bind.
  { apply read_failure_ends_for_in. intros data i. apply read_failure_ends_angular_body. }
  intros data.
  apply read_failure_ends_bind; [apply read_failure_ends_silent; reflexivity|intros _].
  apply read_failure_ends_bind.
  { apply read_failure_ends_silent. intros h'. unfold plt.contourf, issued, bind. cbn.
    destruct (plt.same_shape r theta data); reflexivity. }
  intros _.
  repeat (apply read_failure_ends_bind; [apply read_failure_ends_silent; reflexivity|intros _]).
  apply read_failure_ends_silent; reflexivity.
Qed.

Lemma spatial_scan_read_failure_ends_witness :
  outcome (spatial_scan (failing_at 13 [2; 4]%Q) true [] []) [] =
    Raise (DeviceError "no data")
  ∧ last (issued (spatial_scan (failing_at 13 [2; 4]%Q) true [] []) []) =
    Some (EvGetData (Raise (DeviceError "no data"))).
Proof.
  apply (spatial_scan_read_failure_ends (failing_at 13 [2; 4]%Q) true [] [] []
           (DeviceError "no data")).
  apply list_elem_of_lookup. exists 13. vm_compute. reflexivity.
Defined.

(** A loop whose body always succeeds, keeps the invariant [I] of the
    carried variable and shows [blk x] through the projection [g], shows the
    blocks of its elements in order. *)
Lemma for_in_projected {A T B} (g : event → option B) (body : T → A → M T)
    (I : nat → T → Prop) (blk : A → list B) :
  (∀ k acc x h, I k acc →
     ∃ acc' es, body acc x h = (Ok acc', es) ∧ omap g es = blk x ∧ I (S k) acc') →
  ∀ xs k acc h, I k acc →
    ∃ acc' es,
      for_in xs body acc h = (Ok acc', es)
      ∧ omap g es = mjoin (blk <$> xs)
      ∧ I (length xs + k) acc'.
Proof.
  intros Hbody xs. induction xs as [|x xs IH]; intros k acc h HI.
  - exists acc, []. repeat split. exact HI.
  - destruct (Hbody k acc x h HI) as (acc1 & es1 & Hrun1 & Hg1 & HI1).
    destruct (IH (S k) acc1 (h ++ es1) HI1) as (acc2 & es2 & Hrun2 & Hg2 & HI2).
    exists acc2, (es1 ++ es2). cbn [for_in]. unfold bind. rewrite Hrun1, Hrun2.
    split; [reflexivity|]. split.
    + rewrite omap_app, Hg1, Hg2. reflexivity.
    + replace (length (x :: xs) + k) with (length xs + S k) by (cbn; lia). exact HI2.
Qed.

Section spatial_scan_projected.

Variable LIA : LockInAmp.
Hypothesis reads_succeed :
  ∀ h, ∃ d ch2, answer_get_data LIA h = Ok d ∧ d !! "ch2" = Some ch2.

Context {B : Type} (g : event → option B) (blk : nat → nat → list B).
Hypothesis g_read : ∀ a, g (EvGetData a) = None.
Hypothesis g_radial : ∀ i j a val, omap g (radial_calls i j a val) = blk i j.

Lemma radial_body_projected (i : nat) (k : nat) (rad : list value) (j : nat)
    (h : list event) :
  length rad = S k →
  ∃ rad' es,
    radial_body LIA true i rad j h = (Ok rad', es)
    ∧ omap g es = blk i j
    ∧ length rad' = S (S k).
Proof.
  intros Hlen.
  destruct (get_output_succeeds LIA reads_succeed ((h ++ [EvRadialGo 700]) ++ [EvSleep 3]))
    as (val & a & Hrun & Hval).
  exists (rad ++ [val]), (radial_calls i j a val).
  split; [|split; [apply g_radial|rewrite length_app; cbn; lia]].
  unfold radial_body, bind at 1. cbn. unfold bind at 1. rewrite Hrun.
  destruct val; [congruence| |]; reflexivity.
Qed.

Lemma angular_body_projected (k : nat) (data : list (list value)) (i : nat)
    (h : list event) :
  length data = k ∧ Forall (λ row, length row = 11) data →
  ∃ data' es,
    angular_body LIA true data i h = (Ok data', es)
    ∧ omap g es = mjoin (blk i <$> range 10) ++ omap g pass_end
    ∧ (length data' = S k ∧ Forall (λ row, length row = 11) data').
Proof.
  intros [Hlen Hrows].
  destruct (get_output_succeeds LIA reads_succeed h) as (val & a & Hrun & _).
  destruct (for_in_projected g (radial_body LIA true i) (λ k rad, length rad = S k) (blk i)
              (radial_body_projected i) (range 10) 0 [val] (h ++ [EvGetData a]) eq_refl)
    as (rad & es & Hloop & Hg & Hrad).
  exists (data ++ [rad]), (EvGetData a :: es ++ pass_end).
  split; [|split; [|split]].
  - unfold angular_body, bind at 1. rewrite Hrun.
    unfold bind at 1. rewrite Hloop. reflexivity.
  - cbn [omap list_omap]. rewrite g_read, omap_app, Hg. reflexivity.
  - rewrite length_app. cbn. lia.
  - apply Forall_app. split; [exact Hrows|]. apply Forall_singleton. exact Hrad.
Qed.

Lemma angular_loop_projected (h : list event) :
  ∃ data es,
    for_in (range 18) (angular_body LIA true) [] h = (Ok data, es)
    ∧ omap g es = mjoin ((λ i, mjoin (blk i <$> range 10) ++ omap g pass_end) <$> range 18)
    ∧ grid_18_11 data.
Proof.
  apply (for_in_projected g (angular_body LIA true)
           (λ k data, length data = k ∧ Forall (λ row, length row = 11) data)
           (λ i, mjoin (blk i <$> range 10) ++ omap g pass_end)
           angular_body_projected (range 18) 0 [] h).
  split; [reflexivity|constructor].
Qed.

End spatial_scan_projected.

Lemma same_shape_grid (r theta : list Q) (z : list (list value)) :
  grid_18_11 z →
  plt.same_shape r theta z = true ↔ length theta = 18 ∧ length r = 11.
Proof.
  intros [Hlen Hrows]. unfold plt.same_shape.
  rewrite andb_true_iff, bool_decide_eq_true, forallb_forall, Hlen.
  split.
  - intros [<- Hall]. split; [reflexivity|].
    destruct z as [|row z]; [discriminate|].
    specialize (Hall row (or_introl eq_refl)). apply bool_decide_eq_true in Hall.
    apply Forall_cons in Hrows as [Hrow _]. congruence.
  - intros [-> ->]. split; [reflexivity|].
    intros row Hin. apply bool_decide_eq_true.
    rewrite Forall_forall in Hrows. apply Hrows, list_elem_of_In, Hin.
Qed.

(** X10: with the motor bound and every read answered, the grid handed to
    the one [contourf] call has 18 rows of 11 readings whatever [r] and
    [theta] are, and the scan returns normally exactly when [theta] has 18
    entries and [r] has 11. *)
Theorem spatial_scan_grid_shape (LIA : LockInAmp) (r theta : list Q) (h : list event) :
  (∀ h', ∃ d ch2, answer_get_data LIA h' = Ok d ∧ d !! "ch2" = Some ch2) →
  ∃ z,
    grid_18_11 z
    ∧ contour_calls (issued (spatial_scan LIA true r theta) h) = [(r, theta, z)]
    ∧ (outcome (spatial_scan LIA true r theta) h = Ok tt ↔
         length theta = 18 ∧ length r = 11).
Proof.
  intros Hreads.
  destruct (angular_loop_projected LIA Hreads
              (λ e, match e with EvPltContourf r theta z => Some (r, theta, z) | _ => None end)
              (λ _ _, []) (λ _, eq_refl) (λ _ _ _ _, eq_refl) h)
    as (z & es & Hloop & Hg & Hgrid).
  exists z. split; [exact Hgrid|].
  pose proof (same_shape_grid r theta z Hgrid) as Hshape.
  unfold issued, outcome, contour_calls. rewrite spatial_scan_by_loop, Hloop.
  change (mjoin _) with (@nil (list Q * list Q * list (list value))) in Hg.
  destruct (plt.same_shape r theta z); cbn [fst snd]; rewrite omap_app, Hg.
  - split; [reflexivity|]. split; [intros _; apply Hshape; reflexivity|reflexivity].
  - split; [reflexivity|]. split; [discriminate|].
    intros Hlens. apply Hshape in Hlens. discriminate.
Qed.

Lemma spatial_scan_grid_shape_witness :
  ∃ z,
    grid_18_11 z
    ∧ contour_calls (issued (spatial_scan (steady [1; 2; 6]%Q) true [1; 2]%Q [0]%Q) []) =
        [([1; 2]%Q, [0]%Q, z)]
    ∧ (outcome (spatial_scan (steady [1; 2; 6]%Q) true [1; 2]%Q [0]%Q) [] = Ok tt ↔
         length [0]%Q = 18 ∧ length [1; 2]%Q = 11).
Proof.
  apply (spatial_scan_grid_shape (steady [1; 2; 6]%Q) [1; 2]%Q [0]%Q []).
  intros h'. eexists _, _. split; reflexivity.
Defined.

(** X11: with the motor bound and every read answered, the radial steps of
    a scan sum to zero (each pass goes out by ten steps of 700 and comes back
    by 7250 less 250), and the angular axis is advanced by 720 in all. *)
Theorem spatial_scan_travel (LIA : LockInAmp) (r theta : list Q) (h : list event) :
  (∀ h', ∃ d ch2, answer_get_data LIA h' = Ok d ∧ d !! "ch2" = Some ch2) →
  radial_travel (motions (issued (spatial_scan LIA true r theta) h)) = 0%Z
  ∧ angular_travel (motions (issued (spatial_scan LIA true r theta) h)) = 720%Z.
Proof.
  intros Hreads.
  destruct (spatial_scan_scan_calls LIA true r theta h) as [_ ->].
  destruct (angular_loop_runs LIA Hreads h) as (data & es & Hloop & Hm).
  unfold issued. rewrite Hloop. cbn [snd]. rewrite Hm. split; reflexivity.
Qed.

Lemma spatial_scan_travel_witness :
  radial_travel (motions (issued (spatial_scan (steady [1; 2; 6]%Q) true [] []) [])) = 0%Z
  ∧ angular_travel (motions (issued (spatial_scan (steady [1; 2; 6]%Q) true [] []) [])) = 720%Z.
Proof.
  apply (spatial_scan_travel (steady [1; 2; 6]%Q) [] [] []).
  intros h'. eexists _, _. split; reflexivity.
Defined.

(** X12: with the motor bound and every read answered, the scan prints one
    position line per radial step and none for the baseline reads: 180 lines
    for 198 reads, pass [i] labelled with angle [10 i] and radii 700 to
    7000. *)
Theorem spatial_scan_printed_positions (LIA : LockInAmp) (r theta : list Q)
    (h : list event) :
  (∀ h', ∃ d ch2, answer_get_data LIA h' = Ok d ∧ d !! "ch2" = Some ch2) →
  printed_positions (issued (spatial_scan LIA true r theta) h) =
    mjoin (pass_positions <$> range 18)
  ∧ length (printed_positions (issued (spatial_scan LIA true r theta) h)) = 180.
Proof.
  intros Hreads.
  destruct (angular_loop_projected LIA Hreads
              (λ e, match e with
                    | EvPrint (PositionLine theta radius _) => Some (theta, radius)
                    | _ => None
                    end)
              (λ i j, [((Z.of_nat i * 10)%Z, ((Z.of_nat j + 1) * 700)%Z)])
              (λ _, eq_refl) (λ _ _ _ _, eq_refl) h)
    as (z & es & Hloop & Hg & _).
  assert (printed_positions (issued (spatial_scan LIA true r theta) h) =
          mjoin (pass_positions <$> range 18)) as Hlines.
  { unfold issued, printed_positions. rewrite spatial_scan_by_loop, Hloop.
    destruct (plt.same_shape r theta z); cbn [snd]; rewrite omap_app, Hg;
      vm_compute; reflexivity. }
  rewrite Hlines. split; reflexivity.
Qed.

Lemma spatial_scan_printed_positions_witness :
  printed_positions (issued (spatial_scan (steady [1; 2; 6]%Q) true [] []) []) =
    mjoin (pass_positions <$> range 18)
  ∧ length (printed_positions (issued (spatial_scan (steady [1; 2; 6]%Q) true [] []) [])) = 180.
Proof.
  apply (spatial_scan_printed_positions (steady [1; 2; 6]%Q) [] [] []).
  intros h'. eexists _, _. split; reflexivity.
Defined.

(** ** More on the configuration *)

(** X13: with a slope other than 6, 12, 18 and 24 the configuration returns
    normally and adds no filter call to the record: the filter the
    instrument holds is the one set before, whatever corner and slope were
    asked for. *)
Theorem configre_lockin_invalid_slope_keeps_filter (freq amp : Q)
    (lowpass_corner lowpass_slope gain : N) (h : list event) :
  lowpass_slope ∉ [6; 12; 18; 24]%N →
  outcome (configre_lockin freq amp lowpass_corner lowpass_slope gain) h = Ok tt
  ∧ filter_calls (h ++ issued (configre_lockin freq amp lowpass_corner lowpass_slope gain) h)
    = filter_calls h.
Proof.
  intros Hslope.
  assert (slope_identifier !! lowpass_slope = None) as Hid.
  { apply eq_None_not_Some. intros Hsome. apply Hslope, slope_identifier_valid, Hsome. }
  unfold outcome, issued. rewrite configre_lockin_runs, Hid. cbn [fst snd].
  split; [reflexivity|].
  unfold filter_calls. rewrite omap_app. cbn. rewrite app_nil_r. reflexivity.
Qed.

Lemma configre_lockin_invalid_slope_keeps_filter_witness :
  outcome (configre_lockin 320 0.1 10 7 40) [EvSetFilter 10 "Slope12dB"] = Ok tt
  ∧ filter_calls ([EvSetFilter 10 "Slope12dB"]
                  ++ issued (configre_lockin 320 0.1 10 7 40) [EvSetFilter 10 "Slope12dB"])
    = filter_calls [EvSetFilter 10 "Slope12dB"].
Proof.
  apply (configre_lockin_invalid_slope_keeps_filter 320 0.1 10 7 40
           [EvSetFilter 10 "Slope12dB"]).
  rewrite !elem_of_cons, elem_of_nil. intros [H|[H|[H|[H|[]]]]]; discriminate H.
Defined.
